(** * WhatsApp-Lite: the chat session engine of [Whatsapplite.py]

    A shallow embedding of the socket handlers ([on_auth], [on_join],
    [on_msg], [on_typing], [on_delivered], [on_read], [on_read_all],
    [on_delete], [on_edit], [on_react], [on_pin], [on_disconnect]), of the
    helpers [mk_msg_db] and [message_to_dict], and of the routes that write
    to the message table ([upload], [upload_voice], [seed_demo]).

    Conventions of the embedding.
    - The process state is passed explicitly: the message table, the two
      in-memory dictionaries [online_users] and [sid_to_user], and the
      rooms each connection has entered with [join_room].
    - A handler returns the new state and the list of events it emits, in
      the order of the [emit] calls.
    - What a handler reads from its surroundings is an argument:
      [request.sid], [datetime.utcnow()] and [secrets.token_hex(10)] are
      the fields of [env]; the Device table read by [on_auth] is carried by
      the event.
    - A database session is a working copy of the table.  The rows a handler
      assigns to reach the table when the handler calls [sess.commit()];
      a handler that never commits leaves the table as it found it.
    - A timestamp is a clock reading in [nat]; [message_to_dict] carries it
      as it is (the [strftime] rendering is not modelled). *)

From stdpp Require Import gmap strings list sorting pretty.

(** ** Values of an event payload *)

(** The JSON scalars a client puts in a payload, as the Python values the
    handler sees: [None], a [bool], a [str]. *)
Inductive jval : Type :=
  | JNull
  | JBool (b : bool)
  | JStr (s : string).

#[global] Instance jval_eq_dec : EqDecision jval.
Proof. solve_decision. Defined.

Definition jval_enc (v : jval) : option (bool + string) :=
  match v with
  | JNull => None
  | JBool b => Some (inl b)
  | JStr s => Some (inr s)
  end.

Definition jval_dec (x : option (bool + string)) : jval :=
  match x with
  | None => JNull
  | Some (inl b) => JBool b
  | Some (inr s) => JStr s
  end.

#[global] Instance jval_countable : Countable jval.
Proof. apply (inj_countable' jval_enc jval_dec). by intros []. Defined.

(** Python truth value: [None], [False] and the empty string are false. *)
Definition truthy (v : jval) : bool :=
  match v with
  | JNull => false
  | JBool b => b
  | JStr s => negb (String.eqb s "")
  end.

(** The payload of an inbound event: a dict from keys to values. *)
Abbreviation data := (gmap string jval).

(** [d.get(k)] *)
Definition get (d : data) (k : string) : jval := default JNull (d !! k).

(** [d.get(k, dflt)]: the default replaces an absent key only. *)
Definition get_or (d : data) (k : string) (dflt : string) : jval :=
  default (JStr dflt) (d !! k).

(** ** The message table *)

Module Message.
Record row : Type := mk {
  msg_id : string;
  room : jval;
  author : jval;
  text : jval;
  mtype : string;
  file : option string;
  ts : nat;
  edited : bool;
  deleted : bool;
  reactions : gmap jval (list jval);
  pinned : bool;
  read_by : list jval
}.
End Message.

(** The dict built by [message_to_dict]. *)
Module Dict.
Record t : Type := mk {
  id : string;
  room : jval;
  name : jval;
  msg : jval;
  type : string;
  file : option string;
  ts : nat;
  edited : bool;
  deleted : bool;
  reactions : gmap jval (list jval);
  pinned : bool;
  read_by : list jval
}.
End Dict.

(** [m.reactions or {}], [bool(m.pinned)] and [m.read_by or []] are the
    stored values: every row is made by [mk_msg_db], which stores a dict, a
    bool and a list. *)
Definition message_to_dict (m : Message.row) : Dict.t :=
  {| Dict.id := Message.msg_id m;
     Dict.room := Message.room m;
     Dict.name := Message.author m;
     Dict.msg := Message.text m;
     Dict.type := Message.mtype m;
     Dict.file := Message.file m;
     Dict.ts := Message.ts m;
     Dict.edited := Message.edited m;
     Dict.deleted := Message.deleted m;
     Dict.reactions := Message.reactions m;
     Dict.pinned := Message.pinned m;
     Dict.read_by := Message.read_by m |}.

(** ** Process state *)

Record state : Type := mk_state {
  db : list Message.row;                    (* table [messages], in insertion order *)
  online_users : gmap string (gset string); (* username -> set(sids) *)
  sid_to_user : gmap string string;         (* sid -> username *)
  rooms : gmap jval (gset string)           (* room -> sids that called join_room *)
}.

Definition init_state : state :=
  {| db := []; online_users := ∅; sid_to_user := ∅; rooms := ∅ |}.

Definition set_db (st : state) (rows : list Message.row) : state :=
  {| db := rows; online_users := online_users st;
     sid_to_user := sid_to_user st; rooms := rooms st |}.

(** [join_room(r)] for the connection [sid]. *)
Definition join_room (sid : string) (r : jval) (st : state) : state :=
  {| db := db st; online_users := online_users st;
     sid_to_user := sid_to_user st;
     rooms := <[r := {[sid]} ∪ default ∅ (rooms st !! r)]> (rooms st) |}.

(** What a handler reads from its surroundings. *)
Record env : Type := mk_env {
  request_sid : string;  (* request.sid *)
  utcnow : nat;          (* datetime.utcnow() *)
  token_hex : string     (* secrets.token_hex(10) *)
}.

(** ** Emitted events *)

Inductive target : Type :=
  | Everyone                          (* socketio.emit(ev, p) *)
  | To (r : jval)                     (* socketio.emit(ev, p, to=r); to=None reaches everyone *)
  | ToOthers (r : jval) (sid : string) (* emit(ev, p, to=r, include_self=False) *)
  | Reply (sid : string).             (* emit(ev, p): to the calling connection *)

Inductive payload : Type :=
  | PPresence (user : string) (online : bool)
  | POnline (users : list string)
  | PMessages (l : list Dict.t)
  | PMessage (m : Dict.t)
  | PSent (id : string)
  | PTyping (r name : jval)
  | PDelivered (id : jval)
  | PRead (id name : jval).

Record emission : Type := emit {
  ev_name : string;
  ev_payload : payload;
  ev_to : target
}.

(** ** Helpers *)

(** The keyword-argument assignments of the handlers. *)
Definition set_text (v : jval) (m : Message.row) : Message.row :=
  Message.mk (Message.msg_id m) (Message.room m) (Message.author m) v
    (Message.mtype m) (Message.file m) (Message.ts m) (Message.edited m)
    (Message.deleted m) (Message.reactions m) (Message.pinned m)
    (Message.read_by m).

Definition set_ts (v : nat) (m : Message.row) : Message.row :=
  Message.mk (Message.msg_id m) (Message.room m) (Message.author m)
    (Message.text m) (Message.mtype m) (Message.file m) v (Message.edited m)
    (Message.deleted m) (Message.reactions m) (Message.pinned m)
    (Message.read_by m).

Definition set_edited (v : bool) (m : Message.row) : Message.row :=
  Message.mk (Message.msg_id m) (Message.room m) (Message.author m)
    (Message.text m) (Message.mtype m) (Message.file m) (Message.ts m) v
    (Message.deleted m) (Message.reactions m) (Message.pinned m)
    (Message.read_by m).

Definition set_deleted (v : bool) (m : Message.row) : Message.row :=
  Message.mk (Message.msg_id m) (Message.room m) (Message.author m)
    (Message.text m) (Message.mtype m) (Message.file m) (Message.ts m)
    (Message.edited m) v (Message.reactions m) (Message.pinned m)
    (Message.read_by m).

Definition set_reactions (v : gmap jval (list jval)) (m : Message.row)
  : Message.row :=
  Message.mk (Message.msg_id m) (Message.room m) (Message.author m)
    (Message.text m) (Message.mtype m) (Message.file m) (Message.ts m)
    (Message.edited m) (Message.deleted m) v (Message.pinned m)
    (Message.read_by m).

Definition set_pinned (v : bool) (m : Message.row) : Message.row :=
  Message.mk (Message.msg_id m) (Message.room m) (Message.author m)
    (Message.text m) (Message.mtype m) (Message.file m) (Message.ts m)
    (Message.edited m) (Message.deleted m) (Message.reactions m) v
    (Message.read_by m).

Definition set_read_by (v : list jval) (m : Message.row) : Message.row :=
  Message.mk (Message.msg_id m) (Message.room m) (Message.author m)
    (Message.text m) (Message.mtype m) (Message.file m) (Message.ts m)
    (Message.edited m) (Message.deleted m) (Message.reactions m)
    (Message.pinned m) v.

(** [sess.query(Message).filter_by(msg_id=i).first()]: position and value of
    the first row whose [msg_id] is [i]. *)
Definition query_first (i : jval) (rows : list Message.row)
  : option (nat * Message.row) :=
  list_find (λ m, JStr (Message.msg_id m) = i) rows.

(** [sess.query(Message).filter_by(room=r)] *)
Definition query_room (r : jval) (rows : list Message.row)
  : list Message.row :=
  filter (λ m, Message.room m = r) rows.

(** [arr.remove(x)]: drops the first occurrence. *)
Fixpoint remove (x : jval) (arr : list jval) : list jval :=
  match arr with
  | [] => []
  | y :: rest => if decide (y = x) then rest else y :: remove x rest
  end.

(** [mk_msg_db]: the new row and the table after the insert, or [None] when
    the insert breaks the unique constraint on [msg_id] (the commit raises
    and the caller stops there). *)
Definition mk_msg_db (e : env) (author text : jval) (mtype : string)
    (file_url : option string) (r : jval) (rows : list Message.row)
  : option (Message.row * list Message.row) :=
  let msg :=
    {| Message.msg_id := token_hex e;
       Message.room := r;
       Message.author := author;
       Message.text := text;
       Message.mtype := mtype;
       Message.file := file_url;
       Message.ts := utcnow e;
       Message.edited := false;
       Message.deleted := false;
       Message.reactions := ∅;
       Message.pinned := false;
       Message.read_by := [] |} in
  if bool_decide (token_hex e ∈ (Message.msg_id <$> rows)) then None
  else Some (msg, rows ++ [msg]).

(** [order_by(Message.ts.asc())]: rows in ascending [ts]; rows with equal
    [ts] keep their table order. *)
Fixpoint insert_by_ts (m : Message.row) (sorted : list Message.row)
  : list Message.row :=
  match sorted with
  | [] => [m]
  | x :: rest =>
      if Message.ts m <=? Message.ts x then m :: x :: rest
      else x :: insert_by_ts m rest
  end.

Fixpoint order_by_ts (rows : list Message.row) : list Message.row :=
  match rows with
  | [] => []
  | m :: rest => insert_by_ts m (order_by_ts rest)
  end.

(** ** Socket handlers *)

(** [devices] is the Device table joined with its users: token -> username.
    [list(online_users.keys())] is given as the elements of the key set;
    the order of that list is not modelled. *)
Definition on_auth (devices : gmap string string) (e : env) (d : data)
    (st : state) : state * list emission :=
  let token := get d "token" in
  if negb (truthy token) then (st, []) else
  match match token with JStr t => devices !! t | _ => None end with
  | None => (st, [])
  | Some user =>
      let sid := request_sid e in
      let st1 :=
        {| db := db st;
           online_users :=
             <[user := {[sid]} ∪ default ∅ (online_users st !! user)]>
               (online_users st);
           sid_to_user := <[sid := user]> (sid_to_user st);
           rooms := rooms st |} in
      let st2 := join_room sid (JStr ("user:" +:+ user)) st1 in
      (st2,
       [ emit "presence" (PPresence user true) Everyone;
         emit "online_update"
           (POnline (elements (dom (online_users st2)))) Everyone ])
  end.

Definition on_join (e : env) (d : data) (st : state)
  : state * list emission :=
  let r := get_or d "room" "main" in
  let st1 := join_room (request_sid e) r st in
  let rows := take 500 (order_by_ts (query_room r (db st1))) in
  (st1, [ emit "history" (PMessages (message_to_dict <$> rows))
            (Reply (request_sid e)) ]).

Definition on_msg (e : env) (d : data) (st : state)
  : state * list emission :=
  let r := get_or d "room" "main" in
  let name := get_or d "name" "Anon" in
  let text := get_or d "msg" "" in
  match mk_msg_db e name text "text" None r (db st) with
  | None => (st, [])
  | Some (msg, rows) =>
      (set_db st rows,
       [ emit "msg" (PMessage (message_to_dict msg)) (To r);
         emit "sent" (PSent (Message.msg_id msg)) (Reply (request_sid e)) ])
  end.

Definition on_typing (e : env) (d : data) (st : state)
  : state * list emission :=
  let r := get_or d "room" "main" in
  let name := get_or d "name" "Anon" in
  (st, [ emit "typing" (PTyping r name) (ToOthers r (request_sid e)) ]).

Definition on_delivered (d : data) (st : state) : state * list emission :=
  (st, [ emit "delivered" (PDelivered (get d "id")) (To (get d "room")) ]).

Definition on_read (d : data) (st : state) : state * list emission :=
  let msg_id := get d "id" in
  let r := get d "room" in
  let name := get d "name" in
  if negb (truthy msg_id) || negb (truthy r) || negb (truthy name)
  then (st, []) else
  let rows :=
    match query_first msg_id (db st) with
    | Some (i, m) =>
        let arr := Message.read_by m in
        if truthy name && negb (bool_decide (name ∈ arr))
        then <[i := set_read_by (arr ++ [name]) m]> (db st)   (* commit *)
        else db st
    | None => db st
    end in
  (set_db st rows, [ emit "read" (PRead msg_id name) (To r) ]).

(** The loop of [on_read_all] over the rows of the room: the rows as the
    session holds them afterwards, and the flag [changed]. *)
Fixpoint read_all_loop (name : jval) (rows : list Message.row)
    (changed : bool) : list Message.row * bool :=
  match rows with
  | [] => ([], changed)
  | m :: rest =>
      let arr := Message.read_by m in
      if truthy name && negb (bool_decide (name ∈ arr))
      then
        let '(rest', c) := read_all_loop name rest true in
        (set_read_by (arr ++ [name]) m :: rest', c)
      else
        let '(rest', c) := read_all_loop name rest changed in
        (m :: rest', c)
  end.

(** [on_read_all] assigns [read_by] on the session's rows and answers from
    them; it has no [sess.commit()], so the table keeps its rows. *)
Definition on_read_all (d : data) (st : state) : state * list emission :=
  let r := get d "room" in
  let name := get d "name" in
  let '(sess_rows, changed) :=
    read_all_loop name (query_room r (db st)) false in
  if changed
  then (st, [ emit "read_update" (PMessages (message_to_dict <$> sess_rows))
                (To r) ])
  else (st, []).

Definition on_delete (d : data) (st : state) : state * list emission :=
  let r := get d "room" in
  let msg_id := get d "id" in
  match query_first msg_id (db st) with
  | Some (i, m) =>
      let m' := set_text (JStr "(message deleted)") (set_deleted true m) in
      (set_db st (<[i := m']> (db st)),
       [ emit "msg_update" (PMessage (message_to_dict m')) (To r) ])
  | None => (st, [])
  end.

Definition on_edit (e : env) (d : data) (st : state)
  : state * list emission :=
  let r := get d "room" in
  let msg_id := get d "id" in
  let new_text := get d "msg" in
  match query_first msg_id (db st) with
  | Some (i, m) =>
      let m' := set_ts (utcnow e) (set_edited true (set_text new_text m)) in
      (set_db st (<[i := m']> (db st)),
       [ emit "msg_update" (PMessage (message_to_dict m')) (To r) ])
  | None => (st, [])
  end.

(** The body of [on_react] on the reaction dict of one message. *)
Definition toggle (emoji name : jval) (rx : gmap jval (list jval))
  : gmap jval (list jval) :=
  let arr := default [] (rx !! emoji) in
  let arr' :=
    if bool_decide (name ∈ arr) then remove name arr else arr ++ [name] in
  <[emoji := arr']> rx.

Definition on_react (d : data) (st : state) : state * list emission :=
  let r := get d "room" in
  let msg_id := get d "id" in
  let emoji := get d "emoji" in
  let name := get d "name" in
  if negb (truthy emoji) || negb (truthy name) then (st, []) else
  match query_first msg_id (db st) with
  | Some (i, m) =>
      let m' := set_reactions (toggle emoji name (Message.reactions m)) m in
      (set_db st (<[i := m']> (db st)),
       [ emit "msg_update" (PMessage (message_to_dict m')) (To r) ])
  | None => (st, [])
  end.

Definition on_pin (d : data) (st : state) : state * list emission :=
  let r := get d "room" in
  let msg_id := get d "id" in
  let pin := truthy (get d "pin") in
  match query_first msg_id (db st) with
  | Some (i, m) =>
      let m' := set_pinned pin m in
      (set_db st (<[i := m']> (db st)),
       [ emit "msg_update" (PMessage (message_to_dict m')) (To r) ])
  | None => (st, [])
  end.

Definition on_disconnect (e : env) (st : state) : state * list emission :=
  let sid := request_sid e in
  let popped := sid_to_user st !! sid in
  let st0 :=
    {| db := db st; online_users := online_users st;
       sid_to_user := delete sid (sid_to_user st); rooms := rooms st |} in
  match popped with
  | None => (st0, [])
  | Some user =>
      if String.eqb user "" then (st0, []) else
      let with_online (o : gmap string (gset string)) : state :=
        {| db := db st0; online_users := o;
           sid_to_user := sid_to_user st0; rooms := rooms st0 |} in
      let update (st' : state) :=
        emit "online_update" (POnline (elements (dom (online_users st'))))
          Everyone in
      match online_users st !! user with
      | None => (st0, [update st0])
      | Some s =>
          if decide (s = ∅) then (st0, [update st0]) else
          let s' := s ∖ {[sid]} in
          if decide (s' = ∅)
          then
            let st1 := with_online (delete user (online_users st)) in
            (st1, [ emit "presence" (PPresence user false) Everyone;
                    update st1 ])
          else
            let st1 := with_online (<[user := s']> (online_users st)) in
            (st1, [update st1])
      end
  end.

(** ** Routes that write to the message table *)

(** The content-type tag chosen by [upload] from the MIME type. *)
Definition upload_type (mim : string) : string :=
  let typ := "file" in
  let typ := if String.prefix "image" mim then "image" else typ in
  let typ := if String.prefix "audio" mim then "audio" else typ in
  let typ := if String.prefix "video" mim then "video" else typ in
  typ.

(** [upload], for a request that carries a file: [form] is [request.form],
    [mim] the file's content type and [url] the address under which the
    file was saved. *)
Definition upload (e : env) (form : gmap string string) (mim url : string)
    (st : state) : state * list emission :=
  let r := JStr (default "main" (form !! "room")) in
  let name := JStr (default "Anonymous" (form !! "name")) in
  match mk_msg_db e name (JStr "(file)") (upload_type mim) (Some url) r
          (db st) with
  | None => (st, [])
  | Some (msg, rows) =>
      (set_db st rows, [ emit "msg" (PMessage (message_to_dict msg)) (To r) ])
  end.

Definition upload_voice (e : env) (form : gmap string string) (url : string)
    (st : state) : state * list emission :=
  let r := JStr (default "main" (form !! "room")) in
  let name := JStr (default "Anonymous" (form !! "name")) in
  match mk_msg_db e name (JStr "(voice)") "audio" (Some url) r (db st) with
  | None => (st, [])
  | Some (msg, rows) =>
      (set_db st rows, [ emit "msg" (PMessage (message_to_dict msg)) (To r) ])
  end.

(** [seed_demo]: two inserts into an empty table, each with its own clock
    reading and identifier ([e1], [e2]). *)
Definition seed_demo (e1 e2 : env) (st : state) : state :=
  match db st with
  | [] =>
      match mk_msg_db e1 (JStr "System")
              (JStr "Welcome to WhatsApp-Lite PROD (persistent demo)!")
              "text" None (JStr "main") (db st) with
      | None => st
      | Some (_, rows1) =>
          match mk_msg_db e2 (JStr "Alice")
                  (JStr "Say hi — persistence enabled.")
                  "text" None (JStr "main") rows1 with
          | None => set_db st rows1
          | Some (_, rows2) => set_db st rows2
          end
      end
  | _ :: _ => st
  end.

(** ** The engine as a transition system *)

Inductive event : Type :=
  | Auth (devices : gmap string string) (d : data)
  | Join (d : data)
  | Msg (d : data)
  | Typing (d : data)
  | Delivered (d : data)
  | Read (d : data)
  | ReadAll (d : data)
  | DeleteMsg (d : data)
  | EditMsg (d : data)
  | React (d : data)
  | PinMsg (d : data)
  | Disconnect
  | Upload (form : gmap string string) (mim url : string)
  | UploadVoice (form : gmap string string) (url : string)
  | SeedDemo (e2 : env).

Definition handle (e : env) (ev : event) (st : state)
  : state * list emission :=
  match ev with
  | Auth devices d => on_auth devices e d st
  | Join d => on_join e d st
  | Msg d => on_msg e d st
  | Typing d => on_typing e d st
  | Delivered d => on_delivered d st
  | Read d => on_read d st
  | ReadAll d => on_read_all d st
  | DeleteMsg d => on_delete d st
  | EditMsg d => on_edit e d st
  | React d => on_react d st
  | PinMsg d => on_pin d st
  | Disconnect => on_disconnect e st
  | Upload form mim url => upload e form mim url st
  | UploadVoice form url => upload_voice e form url st
  | SeedDemo e2 => (seed_demo e e2 st, [])
  end.

(** Running a list of events, each in its own surroundings; the emitted
    events are collected in order. *)
Fixpoint run (evs : list (env * event)) (st : state)
  : state * list emission :=
  match evs with
  | [] => (st, [])
  | (e, ev) :: rest =>
      let '(st1, out1) := handle e ev st in
      let '(st2, out2) := run rest st1 in
      (st2, out1 ++ out2)
  end.

(** The states the engine can be in. *)
Inductive reachable : state → Prop :=
  | reachable_init : reachable init_state
  | reachable_step e ev st :
      reachable st → reachable (handle e ev st).1.

(** ** Vocabulary of the properties *)

(** The active connections of a user. *)
Definition connections_of (st : state) (user : string) : gset string :=
  default ∅ (online_users st !! user).

(** Every key of [online_users] holds at least one connection. *)
Definition presence_inv (st : state) : Prop :=
  ∀ user s, online_users st !! user = Some s → s ≠ ∅.


(** Some emitted event carries [{user, online: True}]. *)
Definition emits_online (user : string) (out : list emission) : Prop :=
  ∃ x, x ∈ out ∧ ev_payload x = PPresence user true.

(** The users a message's reaction dict lists under an emoji:
    [m.reactions.get(emoji, [])]. *)
Definition reaction_set (m : Message.row) (emoji : jval) : list jval :=
  default [] (Message.reactions m !! emoji).

(** No user is listed twice under an emoji. *)
Definition reactions_nodup (m : Message.row) : Prop :=
  ∀ emoji arr, Message.reactions m !! emoji = Some arr → NoDup arr.

(** The message dicts carried by a list of emitted events. *)
Definition dicts_of_payload (p : payload) : list Dict.t :=
  match p with
  | PMessages l => l
  | PMessage m => [m]
  | _ => []
  end.

Definition dicts_of (out : list emission) : list Dict.t :=
  out ≫= (λ x, dicts_of_payload (ev_payload x)).


(** Ascending timestamps. *)
Definition ts_le (a b : Message.row) : Prop := Message.ts a ≤ Message.ts b.

(** A key the payload does not have. *)
Definition missing (d : data) (k : string) : bool :=
  bool_decide (d !! k = None).

(** The events that lack a field their handler tests for, or the message
    identifier their handler looks up. *)
Definition lacks_required (ev : event) : bool :=
  match ev with
  | Auth _ d => missing d "token"
  | Read d => missing d "id" || missing d "room" || missing d "name"
  | ReadAll d => missing d "name"
  | DeleteMsg d => missing d "id"
  | EditMsg d => missing d "id"
  | React d => missing d "id" || missing d "emoji" || missing d "name"
  | PinMsg d => missing d "id"
  | _ => false
  end.



(** The history reply as the specification words it: the room's rows in
    creation order (the order of the table), the most recent 500. *)
Definition history_as_specified (r : jval) (rows : list Message.row)
  : list Dict.t :=
  let room_rows := query_room r rows in
  message_to_dict <$> drop (length room_rows - 500) room_rows.


(** How one event may change the message table: not at all, by an insert
    of [mk_msg_db], or by overwriting one row with a row of the same
    [msg_id] whose reaction dict is the old one or the old one after one
    [toggle]; [seed_demo] makes two such changes. *)
Inductive db_step : list Message.row → list Message.row → Prop :=
  | db_same rows : db_step rows rows
  | db_add e a t mt f r rows msg rows' :
      mk_msg_db e a t mt f r rows = Some (msg, rows') → db_step rows rows'
  | db_set rows k m m' :
      rows !! k = Some m →
      Message.msg_id m' = Message.msg_id m →
      (Message.reactions m' = Message.reactions m ∨
       ∃ emoji name,
         Message.reactions m' = toggle emoji name (Message.reactions m)) →
      db_step rows (<[k := m']> rows)
  | db_trans rows1 rows2 rows3 :
      db_step rows1 rows2 → db_step rows2 rows3 → db_step rows1 rows3.

(** ** Sample runs *)

Definition env_of (sid : string) (now : nat) (tok : string) : env :=
  {| request_sid := sid; utcnow := now; token_hex := tok |}.

Definition devices0 : gmap string string :=
  {[ "T1" := "alice"; "T2" := "alice"; "T3" := "bob" ]}.

(** alice is connected from [x]. *)
Definition st_alice_once : state :=
  (run [ (env_of "x" 1 "", Auth devices0 {[ "token" := JStr "T1" ]}) ]
     init_state).1.

(** alice is connected from [x] and from [y]. *)
Definition st_alice_twice : state :=
  (run [ (env_of "x" 1 "", Auth devices0 {[ "token" := JStr "T1" ]});
         (env_of "y" 2 "", Auth devices0 {[ "token" := JStr "T2" ]}) ]
     init_state).1.

Definition msg_data (r name text : string) : data :=
  {[ "room" := JStr r; "name" := JStr name; "msg" := JStr text ]}.

(** Two messages in room [main]; the first one is edited after the second
    was sent. *)
Definition st_edited : state :=
  (run [ (env_of "x" 1 "a1", Msg (msg_data "main" "alice" "hi"));
         (env_of "y" 2 "b2", Msg (msg_data "main" "bob" "hello"));
         (env_of "x" 3 "",
          EditMsg {[ "room" := JStr "main"; "id" := JStr "a1";
                     "msg" := JStr "hi there" ]}) ]
     init_state).1.

(** Two messages in room [main]; bob has read the first one. *)
Definition st_half_read : state :=
  (run [ (env_of "x" 1 "a1", Msg (msg_data "main" "alice" "hi"));
         (env_of "x" 2 "a2", Msg (msg_data "main" "alice" "again"));
         (env_of "y" 3 "",
          Read {[ "id" := JStr "a1"; "room" := JStr "main";
                  "name" := JStr "bob" ]}) ]
     init_state).1.

(** One message in room [main] with a reaction by alice. *)
Definition react_data (id emoji name : string) : data :=
  {[ "room" := JStr "main"; "id" := JStr id; "emoji" := JStr emoji;
     "name" := JStr name ]}.

Definition st_reacted : state :=
  (run [ (env_of "x" 1 "a1", Msg (msg_data "main" "alice" "hi"));
         (env_of "x" 2 "", React (react_data "a1" "+1" "alice")) ]
     init_state).1.

(** ** The logout route *)

(** What a route answers: the [ok] and [err] fields of the JSON body and
    the HTTP status. *)
Record reply : Type := mk_reply {
  reply_ok : bool;
  reply_err : option string;
  reply_status : nat
}.

(** [logout]: [form] is [request.form]; the Device row of the token, if
    there is one, is deleted. *)
Definition logout (form : gmap string string) (devices : gmap string string)
  : gmap string string * reply :=
  match form !! "token" with
  | None => (devices, mk_reply false (Some "no-token") 400)
  | Some token =>
      if String.eqb token "" then
        (devices, mk_reply false (Some "no-token") 400)
      else (delete token devices, mk_reply true None 200)
  end.

(** ** Vocabulary of the further properties *)

(** The assignments a handler can make to a stored row. *)
Inductive row_change : Message.row → Message.row → Prop :=
  | change_read name m :
      name ∉ Message.read_by m →
      row_change m (set_read_by (Message.read_by m ++ [name]) m)
  | change_delete m :
      row_change m (set_text (JStr "(message deleted)") (set_deleted true m))
  | change_edit now new_text m :
      row_change m (set_ts now (set_edited true (set_text new_text m)))
  | change_react emoji name m :
      row_change m
        (set_reactions (toggle emoji name (Message.reactions m)) m)
  | change_pin pin m :
      row_change m (set_pinned pin m).

(** How events change the message table, row by row. *)
Inductive table_step : list Message.row → list Message.row → Prop :=
  | table_same rows : table_step rows rows
  | table_add e a t mt f r rows msg rows' :
      mk_msg_db e a t mt f r rows = Some (msg, rows') →
      table_step rows rows'
  | table_set rows k m m' :
      rows !! k = Some m → row_change m m' →
      table_step rows (<[k := m']> rows)
  | table_trans rows1 rows2 rows3 :
      table_step rows1 rows2 → table_step rows2 rows3 →
      table_step rows1 rows3.

(** The fields no handler assigns. *)
Definition same_identity (m m' : Message.row) : Prop :=
  Message.msg_id m' = Message.msg_id m ∧
  Message.room m' = Message.room m ∧
  Message.author m' = Message.author m ∧
  Message.mtype m' = Message.mtype m ∧
  Message.file m' = Message.file m.

(** The flags that are only ever set. *)
Definition flags_kept (m m' : Message.row) : Prop :=
  (Message.deleted m = true → Message.deleted m' = true) ∧
  (Message.edited m = true → Message.edited m' = true).

(** Every connection recorded in [sid_to_user] is in its user's set. *)
Definition sid_inv (st : state) : Prop :=
  ∀ sid user, sid_to_user st !! sid = Some user →
              sid ∈ connections_of st user.





(** * Properties *)

(** ** Reachable states *)

Lemma reachable_run evs st : reachable st → reachable (run evs st).1.
Proof.
  revert st. induction evs as [|[e ev] rest IH]; intros st Hst; [done|].
  simpl. destruct (handle e ev st) as [st1 out1] eqn:Hh.
  specialize (IH st1). destruct (run rest st1) as [st2 out2]. simpl in *.
  apply IH. replace st1 with (handle e ev st).1 by (by rewrite Hh).
  by constructor.
Qed.

Lemma set_db_same st : set_db st (db st) = st.
Proof. by destruct st. Qed.

(** ** The presence registry *)

Lemma presence_inv_init : presence_inv init_state.
Proof. intros u s. simpl. by rewrite lookup_empty. Qed.

Lemma on_auth_presence_inv devices e d st :
  presence_inv st → presence_inv (on_auth devices e d st).1.
Proof.
  intros Hinv. unfold on_auth.
  destruct (negb (truthy (get d "token"))); [done|].
  destruct (match get d "token" with JStr t => devices !! t | _ => None end)
    as [user|]; [|done].
  intros u s. simpl. rewrite lookup_insert. case_decide.
  - intros [= <-]. set_solver.
  - apply Hinv.
Qed.

Lemma on_disconnect_presence_inv e st :
  presence_inv st → presence_inv (on_disconnect e st).1.
Proof.
  intros Hinv. unfold on_disconnect.
  destruct (sid_to_user st !! request_sid e) as [user|]; [|done].
  destruct (String.eqb user ""); [done|].
  destruct (online_users st !! user) as [s|] eqn:Hs; [|done].
  destruct (decide (s = ∅)); [done|].
  destruct (decide (s ∖ {[request_sid e]} = ∅)); intros u s'; simpl.
  - rewrite lookup_delete. case_decide; [done|]. apply Hinv.
  - rewrite lookup_insert. case_decide; [|apply Hinv]. by intros [= <-].
Qed.

Lemma mk_msg_db_Some e a t mt f r rows msg rows' :
  mk_msg_db e a t mt f r rows = Some (msg, rows') →
  rows' = rows ++ [msg] ∧ Message.msg_id msg = token_hex e ∧
  (token_hex e ∉ (Message.msg_id <$> rows)) ∧ Message.reactions msg = ∅ ∧
  Message.read_by msg = [] ∧ Message.room msg = r ∧
  Message.author msg = a ∧ Message.text msg = t.
Proof.
  unfold mk_msg_db. case_bool_decide; [done|]. by intros [= <- <-].
Qed.

(** Only [on_auth] and [on_disconnect] write to the registry. *)
Lemma handle_online_users e ev st :
  (∀ devices d, ev ≠ Auth devices d) → ev ≠ Disconnect →
  online_users (handle e ev st).1 = online_users st.
Proof.
  intros Hauth Hdis. destruct ev; simpl; try done.
  - by destruct (Hauth devices d).
  - unfold on_msg. by destruct (mk_msg_db _ _ _ _ _ _ _) as [[??]|].
  - unfold on_read. by destruct (_ || _).
  - unfold on_read_all. destruct (read_all_loop _ _ _) as [? []]; done.
  - unfold on_delete. by destruct (query_first _ _) as [[??]|].
  - unfold on_edit. by destruct (query_first _ _) as [[??]|].
  - unfold on_react. destruct (_ || _); [done|].
    by destruct (query_first _ _) as [[??]|].
  - unfold on_pin. by destruct (query_first _ _) as [[??]|].
  - unfold upload. by destruct (mk_msg_db _ _ _ _ _ _ _) as [[??]|].
  - unfold upload_voice. by destruct (mk_msg_db _ _ _ _ _ _ _) as [[??]|].
  - unfold seed_demo. destruct (db st); [|done].
    destruct (mk_msg_db _ _ _ _ _ _ _) as [[??]|]; [|done].
    by destruct (mk_msg_db _ _ _ _ _ _ _) as [[??]|].
Qed.

Lemma handle_presence_inv e ev st :
  presence_inv st → presence_inv (handle e ev st).1.
Proof.
  intros Hinv.
  destruct ev as [devices d| | | | | | | | | | | | | |];
    try (intros u s; rewrite handle_online_users; [apply Hinv|done|done]).
  - by apply on_auth_presence_inv.
  - by apply on_disconnect_presence_inv.
Qed.

Lemma reachable_presence_inv st : reachable st → presence_inv st.
Proof.
  induction 1 as [|e ev st _ IH]; [apply presence_inv_init|].
  by apply handle_presence_inv.
Qed.

(** C9.  In every reachable state each username that is a key of
    [online_users] holds a non-empty set of connection ids; and
    [on_disconnect] removes a key exactly when the connection it drops was
    the only one in that user's set and the handler took it out. *)
Theorem presence_keys_nonempty :
  (∀ st, reachable st → presence_inv st) ∧
  (∀ st e user, reachable st →
     (user ∈ dom (online_users st) ∧
      user ∉ dom (online_users (on_disconnect e st).1)) ↔
     (connections_of st user = {[request_sid e]} ∧
      request_sid e ∉ connections_of (on_disconnect e st).1 user)).
Proof.
  split; [apply reachable_presence_inv|].
  intros st e user Hreach. pose proof (reachable_presence_inv _ Hreach) as Hinv.
  unfold connections_of, on_disconnect.
  destruct (sid_to_user st !! request_sid e) as [u|]; simpl;
    [|rewrite elem_of_dom; split;
      [intros [??]; done | intros [-> ?]; set_solver]].
  destruct (String.eqb u ""); simpl;
    [rewrite elem_of_dom; split;
      [intros [??]; done | intros [-> ?]; set_solver]|].
  destruct (online_users st !! u) as [s|] eqn:Hs; simpl;
    [|rewrite elem_of_dom; split;
      [intros [??]; done | intros [-> ?]; set_solver]].
  destruct (decide (s = ∅)) as [->|Hne]; simpl;
    [rewrite elem_of_dom; split;
      [intros [??]; done | intros [-> ?]; set_solver]|].
  destruct (decide (s ∖ {[request_sid e]} = ∅)) as [Hlast|Hmore]; simpl.
  - rewrite !elem_of_dom, lookup_delete. case_decide as Hu.
    + subst u. rewrite Hs. simpl. split; [|intros _; split; eauto; by intros []].
      intros _. split; [|set_solver].
      apply set_eq. intros x. rewrite elem_of_singleton. split.
      * intros Hx. destruct (decide (x = request_sid e)); [done|]. set_solver.
      * intros ->. apply dec_stable. intros Hn.
        apply Hne. apply set_eq. intros y. set_solver.
    + split; [intros [? ?]; done | intros [-> ?]; set_solver].
  - rewrite !elem_of_dom, lookup_insert. case_decide as Hu.
    + subst u. rewrite Hs. simpl. split; [intros [_ []]; eauto|].
      intros [-> _]. destruct Hmore. set_solver.
    + split; [intros [? ?]; done | intros [-> ?]; set_solver].
Qed.

Lemma presence_keys_nonempty_witness :
  reachable st_alice_twice ∧ presence_inv st_alice_twice.
Proof.
  assert (H : reachable st_alice_twice)
    by (apply reachable_run; constructor).
  split; [exact H | exact (proj1 presence_keys_nonempty _ H)].
Defined.



(** ** Authentication *)

(** C2, as the code has it.  Every successful [auth] emits
    [presence {user, online: True}] followed by [online_update], whether or
    not the user already holds a connection; the connection is added to the
    user's set and recorded in [sid_to_user]. *)
Theorem auth_always_emits_presence devices e (d : data) st t user :
  get d "token" = JStr t → t ≠ "" → devices !! t = Some user →
  ∃ st',
    on_auth devices e d st =
      (st', [ emit "presence" (PPresence user true) Everyone;
              emit "online_update"
                (POnline (elements (dom (online_users st')))) Everyone ]) ∧
    connections_of st' user = {[request_sid e]} ∪ connections_of st user ∧
    sid_to_user st' !! request_sid e = Some user ∧
    db st' = db st.
Proof.
  intros Ht Hne Hdev. exists (on_auth devices e d st).1.
  unfold on_auth. rewrite Ht. cbn [truthy].
  destruct (String.eqb_spec t "") as [->|_]; [done|]. cbn [negb].
  rewrite Hdev. split; [reflexivity|].
  unfold connections_of. simpl. by rewrite !lookup_insert_eq.
Qed.

Lemma auth_always_emits_presence_witness :
  ∃ st',
    on_auth devices0 (env_of "y" 2 "") {[ "token" := JStr "T2" ]}
      st_alice_once =
      (st', [ emit "presence" (PPresence "alice" true) Everyone;
              emit "online_update"
                (POnline (elements (dom (online_users st')))) Everyone ]) ∧
    connections_of st' "alice" = {["y"]} ∪ connections_of st_alice_once "alice" ∧
    sid_to_user st' !! "y" = Some "alice" ∧
    db st' = db st_alice_once.
Proof.
  apply (auth_always_emits_presence devices0 (env_of "y" 2 "")
           {[ "token" := JStr "T2" ]} st_alice_once "T2" "alice");
    [reflexivity | discriminate | reflexivity].
Defined.

(** C2 as stated fails: alice already holds the connection [x], and her
    authentication from [y] still emits [presence {alice, online: True}]. *)
Lemma auth_second_connection_emits_presence :
  "x" ∈ connections_of st_alice_once "alice" ∧
  emits_online "alice"
    (on_auth devices0 (env_of "y" 2 "") {[ "token" := JStr "T2" ]}
       st_alice_once).2.
Proof.
  split.
  - vm_compute. reflexivity.
  - eexists. split; [apply list_elem_of_here|reflexivity].
Qed.

(** ** Unknown message identifiers *)

(** C4, as the code has it.  With an identifier that no row carries, [read],
    [delete], [edit], [react] and [pin] leave the state as it is, and
    [delete], [edit], [react] and [pin] emit nothing. *)
Theorem unknown_id_no_op e (d : data) st :
  query_first (get d "id") (db st) = None →
  (on_read d st).1 = st ∧
  on_delete d st = (st, []) ∧
  on_edit e d st = (st, []) ∧
  on_react d st = (st, []) ∧
  on_pin d st = (st, []).
Proof.
  intros Hq. unfold on_read, on_delete, on_edit, on_react, on_pin.
  rewrite Hq. repeat split.
  - destruct (_ || _); simpl; [done | apply set_db_same].
  - by destruct (_ || _).
Qed.

Lemma unknown_id_no_op_witness :
  (on_read (react_data "zz" "+1" "bob") st_reacted).1 = st_reacted ∧
  on_delete (react_data "zz" "+1" "bob") st_reacted = (st_reacted, []) ∧
  on_edit (env_of "y" 9 "") (react_data "zz" "+1" "bob") st_reacted
    = (st_reacted, []) ∧
  on_react (react_data "zz" "+1" "bob") st_reacted = (st_reacted, []) ∧
  on_pin (react_data "zz" "+1" "bob") st_reacted = (st_reacted, []).
Proof.
  apply (unknown_id_no_op (env_of "y" 9 "") (react_data "zz" "+1" "bob")
           st_reacted).
  reflexivity.
Defined.

(** C4 as stated fails for [read]: no row carries the identifier [zz], and
    the handler still sends [read] to the room. *)
Lemma read_unknown_id_still_broadcasts :
  query_first (JStr "zz") (db st_reacted) = None ∧
  on_read (react_data "zz" "+1" "bob") st_reacted =
    (st_reacted,
     [ emit "read" (PRead (JStr "zz") (JStr "bob")) (To (JStr "main")) ]).
Proof. split; reflexivity. Qed.

(** ** Missing fields *)

Lemma missing_get (d : data) k : missing d k = true → get d k = JNull.
Proof.
  unfold missing, get. intros H%bool_decide_eq_true. by rewrite H.
Qed.

Lemma query_first_null rows : query_first JNull rows = None.
Proof.
  unfold query_first. apply list_find_None, Forall_forall. by intros m _.
Qed.

Lemma read_all_loop_falsy name rows c :
  truthy name = false → read_all_loop name rows c = (rows, c).
Proof.
  intros Hn. revert c. induction rows as [|m rest IH]; intros c; [done|].
  simpl. rewrite Hn. simpl. by rewrite IH.
Qed.

(** C5, as the code has it.  An event that lacks the token ([auth]), one of
    [id], [room], [name] ([read]), the name ([read_all]), the identifier
    ([delete_msg], [edit_msg], [pin_msg]) or one of [id], [emoji], [name]
    ([react]) changes nothing and emits nothing.  A [msg] event is never
    dropped for a missing field: an absent [room], [name] or [msg] is
    replaced by [main], [Anon] or the empty string, and the message is
    stored and sent to the room. *)
Theorem missing_field_dropped :
  (∀ e ev st, lacks_required ev = true → handle e ev st = (st, [])) ∧
  (∀ e (d : data) st,
     token_hex e ∉ (Message.msg_id <$> db st) →
     ∃ m,
       on_msg e d st =
         (set_db st (db st ++ [m]),
          [ emit "msg" (PMessage (message_to_dict m)) (To (Message.room m));
            emit "sent" (PSent (token_hex e)) (Reply (request_sid e)) ]) ∧
       (missing d "room" = true → Message.room m = JStr "main") ∧
       (missing d "name" = true → Message.author m = JStr "Anon") ∧
       (missing d "msg" = true → Message.text m = JStr "")).
Proof.
  split.
  - intros e ev st Hlack. destruct ev; simpl in Hlack; try done; simpl.
    + unfold on_auth. by rewrite (missing_get _ _ Hlack).
    + unfold on_read.
      apply orb_true_iff in Hlack as [Hlack|Hlack];
        [apply orb_true_iff in Hlack as [Hlack|Hlack]|];
        rewrite (missing_get _ _ Hlack); simpl;
        by rewrite ?orb_true_r.
    + unfold on_read_all. rewrite (missing_get _ _ Hlack).
      by rewrite read_all_loop_falsy.
    + unfold on_delete.
      by rewrite (missing_get _ _ Hlack), query_first_null.
    + unfold on_edit.
      by rewrite (missing_get _ _ Hlack), query_first_null.
    + unfold on_react.
      apply orb_true_iff in Hlack as [Hlack|Hlack];
        [apply orb_true_iff in Hlack as [Hlack|Hlack]|];
        rewrite (missing_get _ _ Hlack); simpl; rewrite ?orb_true_r;
        try done.
      rewrite query_first_null. by destruct (_ || _).
    + unfold on_pin.
      by rewrite (missing_get _ _ Hlack), query_first_null.
  - intros e d st Hfresh. unfold on_msg, mk_msg_db.
    rewrite bool_decide_eq_false_2 by done.
    eexists (Message.mk _ _ _ _ _ _ _ _ _ _ _ _).
    split; [reflexivity|]. simpl. unfold missing, get_or.
    repeat split; intros H%bool_decide_eq_true; by rewrite H.
Qed.

Lemma missing_field_dropped_witness :
  lacks_required (React {[ "id" := JStr "a1"; "name" := JStr "bob" ]})
    = true ∧
  handle (env_of "y" 5 "")
    (React {[ "id" := JStr "a1"; "name" := JStr "bob" ]}) st_reacted
    = (st_reacted, []).
Proof.
  assert (H : lacks_required
                (React {[ "id" := JStr "a1"; "name" := JStr "bob" ]}) = true)
    by reflexivity.
  split; [exact H|].
  exact (proj1 missing_field_dropped (env_of "y" 5 "") _ st_reacted H).
Defined.

(** C5 as stated fails for [msg]: a payload with no [room], no [name] and
    no [msg] is not dropped; a row is stored and two events are emitted. *)
Lemma msg_without_fields_is_stored :
  missing (∅ : data) "room" = true ∧
  missing (∅ : data) "name" = true ∧
  missing (∅ : data) "msg" = true ∧
  length (db (on_msg (env_of "x" 1 "a1") ∅ init_state).1) = 1 ∧
  length (on_msg (env_of "x" 1 "a1") ∅ init_state).2 = 2.
Proof. repeat split; reflexivity. Qed.

(** ** Soft delete *)

Lemma query_first_Some i rows k m :
  query_first i rows = Some (k, m) →
  rows !! k = Some m ∧ JStr (Message.msg_id m) = i.
Proof.
  unfold query_first. intros H%list_find_Some. tauto.
Qed.

(** Overwriting a row without touching any [msg_id] does not move the row
    that [query_first] finds. *)
Lemma query_first_insert i rows k m j x x' :
  query_first i rows = Some (k, m) →
  rows !! j = Some x → Message.msg_id x' = Message.msg_id x →
  query_first i (<[j := x']> rows) =
    Some (k, if decide (j = k) then x' else m).
Proof.
  unfold query_first. intros Hq Hj Hid.
  apply list_find_Some in Hq as (Hk & Hm & Hbefore).
  apply list_find_Some. split; [|split].
  - destruct (decide (j = k)) as [->|Hne].
    + apply list_lookup_insert_eq. by eapply lookup_lt_Some.
    + by rewrite list_lookup_insert_ne.
  - destruct (decide (j = k)) as [->|Hne]; [|done].
    rewrite Hid. rewrite Hk in Hj. by injection Hj as ->.
  - intros n y Hn Hlt.
    destruct (decide (j = n)) as [->|Hne].
    + rewrite list_lookup_insert_eq in Hn by (by eapply lookup_lt_Some).
      injection Hn as <-. rewrite Hid. by eapply Hbefore.
    + rewrite list_lookup_insert_ne in Hn by done. by eapply Hbefore.
Qed.

(** C8.  For a stored message [on_delete] sets [deleted] and replaces the
    text by the tombstone; the identifier, author, room, pinned flag,
    reaction dict and read set (and the type, file, timestamp and edited
    flag) stay as they were, every other row and the presence registry are
    untouched, and the [msg_update] sent to the room carries the row with
    its reactions as they were. *)
Theorem soft_delete_frame (d : data) st k m :
  query_first (get d "id") (db st) = Some (k, m) →
  ∃ m',
    on_delete d st =
      (set_db st (<[k := m']> (db st)),
       [ emit "msg_update" (PMessage (message_to_dict m'))
           (To (get d "room")) ]) ∧
    query_first (get d "id") (db (on_delete d st).1) = Some (k, m') ∧
    Message.deleted m' = true ∧
    Message.text m' = JStr "(message deleted)" ∧
    Message.msg_id m' = Message.msg_id m ∧
    Message.author m' = Message.author m ∧
    Message.room m' = Message.room m ∧
    Message.pinned m' = Message.pinned m ∧
    Message.reactions m' = Message.reactions m ∧
    Message.read_by m' = Message.read_by m ∧
    Message.mtype m' = Message.mtype m ∧
    Message.file m' = Message.file m ∧
    Message.ts m' = Message.ts m ∧
    Message.edited m' = Message.edited m ∧
    Dict.reactions (message_to_dict m') = Message.reactions m ∧
    Dict.read_by (message_to_dict m') = Message.read_by m ∧
    (∀ j, j ≠ k → db (on_delete d st).1 !! j = db st !! j) ∧
    online_users (on_delete d st).1 = online_users st ∧
    sid_to_user (on_delete d st).1 = sid_to_user st.
Proof.
  intros Hq. unfold on_delete. rewrite Hq. simpl.
  eexists. split; [reflexivity|]. split.
  { pose proof (query_first_Some _ _ _ _ Hq) as [Hk _].
    rewrite (query_first_insert _ _ _ _ _ _ _ Hq Hk) by reflexivity.
    by rewrite decide_True. }
  repeat split. intros j Hj. by rewrite list_lookup_insert_ne.
Qed.

Lemma soft_delete_frame_witness :
  ∃ m',
    query_first (JStr "a1")
      (db (on_delete (react_data "a1" "" "") st_reacted).1) = Some (0, m') ∧
    Message.deleted m' = true ∧
    Message.reactions m' = {[ JStr "+1" := [JStr "alice"] ]}.
Proof.
  destruct (soft_delete_frame (react_data "a1" "" "") st_reacted 0
              (Message.mk "a1" (JStr "main") (JStr "alice") (JStr "hi")
                 "text" None 1 false false
                 {[ JStr "+1" := [JStr "alice"] ]} false [])
              eq_refl)
    as (m' & _ & Hq & Hdel & _ & _ & _ & _ & _ & Hrx & _).
  exists m'. split; [exact Hq|]. split; [exact Hdel | exact Hrx].
Defined.

(** ** How events change the message table *)

Lemma handle_db_step e ev st : db_step (db st) (db (handle e ev st).1).
Proof.
  destruct ev; simpl.
  - unfold on_auth. destruct (negb _); [constructor|].
    destruct (match get d "token" with JStr t => _ | _ => None end);
      constructor.
  - constructor.
  - unfold on_msg.
    destruct (mk_msg_db _ _ _ _ _ _ _) as [[msg rows]|] eqn:Hmk;
      [|constructor]. by eapply db_add.
  - constructor.
  - constructor.
  - unfold on_read. destruct (_ || _); [constructor|]. simpl.
    destruct (query_first _ _) as [[k m]|] eqn:Hq; [|constructor].
    destruct (_ && _); [|constructor].
    apply query_first_Some in Hq as [Hk _].
    eapply db_set; [done | done | by left].
  - unfold on_read_all.
    destruct (read_all_loop _ _ _) as [rows []]; constructor.
  - unfold on_delete.
    destruct (query_first _ _) as [[k m]|] eqn:Hq; [|constructor].
    apply query_first_Some in Hq as [Hk _].
    eapply db_set; [done | done | by left].
  - unfold on_edit.
    destruct (query_first _ _) as [[k m]|] eqn:Hq; [|constructor].
    apply query_first_Some in Hq as [Hk _].
    eapply db_set; [done | done | by left].
  - unfold on_react. destruct (_ || _); [constructor|].
    destruct (query_first _ _) as [[k m]|] eqn:Hq; [|constructor].
    apply query_first_Some in Hq as [Hk _].
    eapply db_set; [done | done | right; eauto].
  - unfold on_pin.
    destruct (query_first _ _) as [[k m]|] eqn:Hq; [|constructor].
    apply query_first_Some in Hq as [Hk _].
    eapply db_set; [done | done | by left].
  - unfold on_disconnect.
    destruct (sid_to_user st !! _); [|constructor].
    destruct (String.eqb _ _); [constructor|].
    destruct (online_users st !! _); [|constructor].
    destruct (decide _); [constructor|]. destruct (decide _); constructor.
  - unfold upload.
    destruct (mk_msg_db _ _ _ _ _ _ _) as [[msg rows]|] eqn:Hmk;
      [|constructor]. by eapply db_add.
  - unfold upload_voice.
    destruct (mk_msg_db _ _ _ _ _ _ _) as [[msg rows]|] eqn:Hmk;
      [|constructor]. by eapply db_add.
  - unfold seed_demo. destruct (db st) eqn:Hdb; [|rewrite Hdb; constructor].
    destruct (mk_msg_db e _ _ _ _ _ _) as [[m1 rows1]|] eqn:Hmk1;
      [|rewrite Hdb; constructor].
    destruct (mk_msg_db e2 _ _ _ _ _ _) as [[m2 rows2]|] eqn:Hmk2; simpl.
    + eapply db_trans; by eapply db_add.
    + by eapply db_add.
Qed.

(** An invariant of the table that every [db_step] keeps holds in every
    reachable state. *)
Lemma reachable_db_invariant (P : list Message.row → Prop) :
  P [] →
  (∀ rows rows', db_step rows rows' → P rows → P rows') →
  ∀ st, reachable st → P (db st).
Proof.
  intros Hinit Hstep st. induction 1 as [|e ev st _ IH]; [done|].
  eapply Hstep; [apply handle_db_step | done].
Qed.

(** *** Reactions list no user twice *)


Lemma remove_subseteq x arr : remove x arr ⊆ arr.
Proof.
  induction arr as [|z rest IH]; simpl; [done|].
  case_decide; [by apply list_subseteq_cons|].
  intros y. rewrite !elem_of_cons. naive_solver.
Qed.

Lemma NoDup_remove x arr : NoDup arr → NoDup (remove x arr).
Proof.
  induction 1 as [|z rest Hz Hnd IH]; simpl; [constructor|].
  case_decide; [done|]. constructor; [|done].
  intros Hin. by apply Hz, (remove_subseteq x).
Qed.




Lemma toggle_nodup emoji name rx :
  (∀ e arr, rx !! e = Some arr → NoDup arr) →
  ∀ e arr, toggle emoji name rx !! e = Some arr → NoDup arr.
Proof.
  intros Hrx e arr. unfold toggle. rewrite lookup_insert.
  case_decide as He; [|apply Hrx]. intros [= <-].
  assert (NoDup (default [] (rx !! emoji))) as Hnd.
  { destruct (rx !! emoji) eqn:Hl; simpl; [by eapply Hrx | constructor]. }
  case_bool_decide as Hin.
  - by apply NoDup_remove.
  - apply NoDup_app. split; [done|]. split; [|apply NoDup_singleton].
    intros y Hy ->%list_elem_of_singleton. done.
Qed.

Lemma db_step_reactions_nodup rows rows' :
  db_step rows rows' →
  Forall reactions_nodup rows → Forall reactions_nodup rows'.
Proof.
  induction 1 as [rows|e a t mt f r rows msg rows' Hmk
                  |rows k m m' Hk Hid Hrx|r1 r2 r3 _ IH1 _ IH2];
    intros Hall; [done| | |auto].
  - apply mk_msg_db_Some in Hmk as (-> & _ & _ & Hrx & _).
    apply Forall_app. split; [done|]. apply Forall_singleton.
    intros e' arr. by rewrite Hrx, lookup_empty.
  - apply Forall_insert; [done|].
    pose proof (Forall_lookup_1 _ _ _ _ Hall Hk) as Hm.
    destruct Hrx as [Hrx|(emoji & name & Hrx)]; intros e' arr; rewrite Hrx.
    + apply Hm.
    + by apply toggle_nodup.
Qed.

Lemma reachable_reactions_nodup st :
  reachable st → Forall reactions_nodup (db st).
Proof.
  apply (reachable_db_invariant (Forall reactions_nodup)); [constructor|].
  apply db_step_reactions_nodup.
Qed.

(** ** Reaction toggle *)



(** ** Reaction keys are permanent *)





(** *** Identifiers are unique *)

Lemma db_step_ids_nodup rows rows' :
  db_step rows rows' →
  NoDup (Message.msg_id <$> rows) → NoDup (Message.msg_id <$> rows').
Proof.
  induction 1 as [rows|e a t mt f r rows msg rows' Hmk
                  |rows j x x' Hj Hid Hrx|r1 r2 r3 _ IH1 _ IH2];
    intros Hnd; [done| | |auto].
  - apply mk_msg_db_Some in Hmk as (-> & Hmsg & Hfresh & _).
    rewrite fmap_app. simpl. apply NoDup_app. split; [done|].
    split; [|apply NoDup_singleton].
    intros y Hy ->%list_elem_of_singleton. by rewrite Hmsg in Hy.
  - rewrite list_fmap_insert, Hid, list_insert_id; [done|].
    by rewrite list_lookup_fmap, Hj.
Qed.

Lemma reachable_ids_nodup st :
  reachable st → NoDup (Message.msg_id <$> db st).
Proof.
  apply (reachable_db_invariant (λ rows, NoDup (Message.msg_id <$> rows)));
    [constructor | apply db_step_ids_nodup].
Qed.


(** *** Every emitted dict is the dict of a row *)

Lemma insert_by_ts_Permutation m rows : insert_by_ts m rows ≡ₚ m :: rows.
Proof.
  induction rows as [|x rest IH]; simpl; [done|].
  destruct (_ <=? _); [done|]. by rewrite IH, Permutation_swap.
Qed.

Lemma order_by_ts_Permutation rows : order_by_ts rows ≡ₚ rows.
Proof.
  induction rows as [|m rest IH]; simpl; [done|].
  by rewrite insert_by_ts_Permutation, IH.
Qed.









(** ** Read receipts for a whole room *)





(** [on_read_all] has no commit: the table is the one it started with. *)
Lemma on_read_all_table (d : data) st : (on_read_all d st).1 = st.
Proof.
  unfold on_read_all. by destruct (read_all_loop _ _ _) as [rows []].
Qed.




(** ** History on join *)

Lemma insert_by_ts_sorted m rows :
  StronglySorted ts_le rows → StronglySorted ts_le (insert_by_ts m rows).
Proof.
  induction 1 as [|x rest Hsorted IH Hx]; simpl.
  { repeat constructor. }
  destruct (Nat.leb_spec (Message.ts m) (Message.ts x)) as [Hle|Hlt].
  - constructor; [by constructor|]. constructor; [done|].
    eapply Forall_impl; [exact Hx|]. unfold ts_le. intros y Hy. simpl in *. lia.
  - constructor; [done|]. rewrite insert_by_ts_Permutation.
    constructor; [unfold ts_le; lia | done].
Qed.

Lemma order_by_ts_sorted rows : StronglySorted ts_le (order_by_ts rows).
Proof.
  induction rows as [|m rest IH]; simpl; [constructor|].
  by apply insert_by_ts_sorted.
Qed.

Lemma order_by_ts_of_sorted rows :
  StronglySorted ts_le rows → order_by_ts rows = rows.
Proof.
  induction 1 as [|x rest Hsorted IH Hx]; simpl; [done|].
  rewrite IH. destruct Hx as [|y rest' Hy _]; simpl; [done|].
  unfold ts_le in Hy. by rewrite (proj2 (Nat.leb_le _ _) Hy).
Qed.

(** C1, as the code has it.  The [history] reply to a [join] lists messages
    of the room in ascending order of their timestamp (the time of creation
    or, for an edited message, of its last edit), holds at most 500 of
    them, each one a stored message of the room and none more often than it
    is stored, and holds all of them when the room has at most 500; [join]
    does not change the table. *)
Theorem history_by_timestamp e (d : data) st :
  ∃ rows,
    (on_join e d st).2 =
      [ emit "history" (PMessages (message_to_dict <$> rows))
          (Reply (request_sid e)) ] ∧
    StronglySorted ts_le rows ∧
    length rows ≤ 500 ∧
    rows ⊆+ query_room (get_or d "room" "main") (db st) ∧
    (length (query_room (get_or d "room" "main") (db st)) ≤ 500 →
     rows ≡ₚ query_room (get_or d "room" "main") (db st)) ∧
    db (on_join e d st).1 = db st.
Proof.
  unfold on_join. cbv zeta. cbn [fst snd db join_room].
  set (room_rows := query_room (get_or d "room" "main") (db st)).
  exists (take 500 (order_by_ts room_rows)).
  split; [done|]. split; [|split; [|split; [|split; [|done]]]].
  - apply (StronglySorted_app_1_l _ _ (drop 500 (order_by_ts room_rows))).
    rewrite take_drop. apply order_by_ts_sorted.
  - rewrite length_take. lia.
  - etrans; [apply submseteq_take|].
    apply Permutation_submseteq, order_by_ts_Permutation.
  - intros Hlen. rewrite take_ge; [apply order_by_ts_Permutation|].
    by rewrite order_by_ts_Permutation.
Qed.

Lemma history_by_timestamp_witness :
  ∃ rows,
    (on_join (env_of "z" 4 "") {[ "room" := JStr "main" ]} st_edited).2 =
      [ emit "history" (PMessages (message_to_dict <$> rows)) (Reply "z") ] ∧
    rows ≡ₚ query_room (JStr "main") (db st_edited).
Proof.
  destruct (history_by_timestamp (env_of "z" 4 "")
              {[ "room" := JStr "main" ]} st_edited)
    as (rows & Hout & _ & _ & _ & Hall & _).
  exists rows. split; [exact Hout|]. apply Hall. vm_compute. lia.
Defined.

(** C1 as stated fails on the order: [a1] was created before [b2] and
    edited after it, and the reply lists [b2] first. *)
Lemma history_follows_edit_time :
  ∃ l,
    (on_join (env_of "z" 4 "") {[ "room" := JStr "main" ]} st_edited).2 =
      [ emit "history" (PMessages l) (Reply "z") ] ∧
    Dict.id <$> l = ["b2"; "a1"] ∧
    Dict.id <$> history_as_specified (JStr "main") (db st_edited)
      = ["a1"; "b2"].
Proof. eexists. repeat split; reflexivity. Qed.

(** When the timestamps of a room already ascend in table order, the reply
    is the first 500 rows of the room: rows past the 500th, the newest
    ones, are not sent. *)
Lemma history_keeps_first_rows e (d : data) st :
  StronglySorted ts_le (query_room (get_or d "room" "main") (db st)) →
  (on_join e d st).2 =
    [ emit "history"
        (PMessages
           (message_to_dict <$>
              take 500 (query_room (get_or d "room" "main") (db st))))
        (Reply (request_sid e)) ].
Proof.
  intros Hsorted. unfold on_join. cbv zeta. cbn [fst snd db join_room].
  by rewrite order_by_ts_of_sorted.
Qed.

(** * Further properties *)

(** ** The message table, row by row *)

Lemma handle_table_step e ev st :
  table_step (db st) (db (handle e ev st).1).
Proof.
  destruct ev; cbn [handle].
  - unfold on_auth. destruct (negb _); [constructor|].
    destruct (match get d "token" with JStr t => _ | _ => None end);
      constructor.
  - constructor.
  - unfold on_msg.
    destruct (mk_msg_db _ _ _ _ _ _ _) as [[msg rows]|] eqn:Hmk;
      [|constructor]. by eapply table_add.
  - constructor.
  - constructor.
  - unfold on_read. destruct (_ || _); [constructor|]. cbn [fst db set_db].
    destruct (query_first _ _) as [[k m]|] eqn:Hq; [|constructor].
    destruct (truthy (get d "name")); cbn [andb]; [|constructor].
    case_bool_decide as Hin; cbn [negb]; [constructor|].
    apply query_first_Some in Hq as [Hk _].
    eapply table_set; [done | by constructor].
  - rewrite on_read_all_table. constructor.
  - unfold on_delete.
    destruct (query_first _ _) as [[k m]|] eqn:Hq; [|constructor].
    apply query_first_Some in Hq as [Hk _].
    eapply table_set; [done | constructor].
  - unfold on_edit.
    destruct (query_first _ _) as [[k m]|] eqn:Hq; [|constructor].
    apply query_first_Some in Hq as [Hk _].
    eapply table_set; [done | constructor].
  - unfold on_react. destruct (_ || _); [constructor|].
    destruct (query_first _ _) as [[k m]|] eqn:Hq; [|constructor].
    apply query_first_Some in Hq as [Hk _].
    eapply table_set; [done | constructor].
  - unfold on_pin.
    destruct (query_first _ _) as [[k m]|] eqn:Hq; [|constructor].
    apply query_first_Some in Hq as [Hk _].
    eapply table_set; [done | constructor].
  - unfold on_disconnect.
    destruct (sid_to_user st !! _); [|constructor].
    destruct (String.eqb _ _); [constructor|].
    destruct (online_users st !! _); [|constructor].
    destruct (decide _); [constructor|]. destruct (decide _); constructor.
  - unfold upload.
    destruct (mk_msg_db _ _ _ _ _ _ _) as [[msg rows]|] eqn:Hmk;
      [|constructor]. by eapply table_add.
  - unfold upload_voice.
    destruct (mk_msg_db _ _ _ _ _ _ _) as [[msg rows]|] eqn:Hmk;
      [|constructor]. by eapply table_add.
  - cbn [fst]. unfold seed_demo.
    destruct (db st) eqn:Hdb; [|rewrite Hdb; constructor].
    destruct (mk_msg_db e _ _ _ _ _ _) as [[m1 rows1]|] eqn:Hmk1;
      [|rewrite Hdb; constructor].
    destruct (mk_msg_db e2 _ _ _ _ _ _) as [[m2 rows2]|] eqn:Hmk2; simpl.
    + eapply table_trans; by eapply table_add.
    + by eapply table_add.
Qed.

Lemma run_table_step evs st : table_step (db st) (db (run evs st).1).
Proof.
  revert st. induction evs as [|[e ev] rest IH]; intros st; [constructor|].
  simpl. pose proof (handle_table_step e ev st) as Hstep.
  destruct (handle e ev st) as [st1 out1]. specialize (IH st1).
  destruct (run rest st1) as [st2 out2]. simpl in *.
  by eapply table_trans.
Qed.

(** A relation between the old and the new value of a row that every
    assignment respects holds along every change of the table. *)
Lemma table_step_rows (R : relation Message.row) rows rows' :
  Reflexive R → Transitive R →
  (∀ m m', row_change m m' → R m m') →
  table_step rows rows' →
  ∀ k m, rows !! k = Some m → ∃ m', rows' !! k = Some m' ∧ R m m'.
Proof.
  intros Hrefl Htrans Hchange.
  induction 1 as [rows|e a t mt f r rows msg rows' Hmk
                  |rows j x x' Hj Hx|r1 r2 r3 _ IH1 _ IH2];
    intros k m Hk.
  - eauto.
  - apply mk_msg_db_Some in Hmk as (-> & _). exists m.
    split; [by apply lookup_app_l_Some | done].
  - destruct (decide (j = k)) as [->|Hne].
    + exists x'. rewrite Hk in Hj. injection Hj as <-.
      split; [|by apply Hchange].
      apply list_lookup_insert_eq. by eapply lookup_lt_Some.
    + exists m. by rewrite list_lookup_insert_ne.
  - destruct (IH1 _ _ Hk) as (m1 & Hk1 & HR1).
    destruct (IH2 _ _ Hk1) as (m2 & Hk2 & HR2). eauto.
Qed.

Lemma reachable_table_invariant (P : list Message.row → Prop) :
  P [] →
  (∀ rows rows', table_step rows rows' → P rows → P rows') →
  ∀ st, reachable st → P (db st).
Proof.
  intros Hinit Hstep st. induction 1 as [|e ev st _ IH]; [done|].
  eapply Hstep; [apply handle_table_step | done].
Qed.

(** A property of single rows that fresh rows have and that every
    assignment keeps holds for every row of a reachable state. *)
Lemma reachable_rows_invariant (P : Message.row → Prop) :
  (∀ e a t mt f r rows msg rows',
     mk_msg_db e a t mt f r rows = Some (msg, rows') → P msg) →
  (∀ m m', row_change m m' → P m → P m') →
  ∀ st, reachable st → Forall P (db st).
Proof.
  intros Hnew Hchange.
  apply (reachable_table_invariant (Forall P)); [constructor|].
  induction 1 as [rows|e a t mt f r rows msg rows' Hmk
                  |rows j x x' Hj Hx|r1 r2 r3 _ IH1 _ IH2];
    intros Hall; [done| | |auto].
  - pose proof (Hnew _ _ _ _ _ _ _ _ _ Hmk) as Hmsg.
    apply mk_msg_db_Some in Hmk as (-> & _).
    apply Forall_app. split; [done|]. by apply Forall_singleton.
  - apply Forall_insert; [done|].
    eapply Hchange; [done|]. by eapply Forall_lookup_1.
Qed.

(** X1.  In every reachable state no two rows carry the same [msg_id], and
    looking a stored row up by its identifier returns that row. *)
Theorem msg_ids_unique st :
  reachable st →
  ∀ j k x y,
    db st !! j = Some x → db st !! k = Some y →
    (Message.msg_id x = Message.msg_id y → j = k) ∧
    query_first (JStr (Message.msg_id x)) (db st) = Some (j, x).
Proof.
  intros Hreach j k x y Hj Hk.
  pose proof (reachable_ids_nodup _ Hreach) as Hnd.
  assert (Hinj : ∀ a b u v, db st !! a = Some u → db st !! b = Some v →
                  Message.msg_id u = Message.msg_id v → a = b).
  { intros a b u v Ha Hb Heq.
    eapply NoDup_lookup; [exact Hnd| |];
      rewrite list_lookup_fmap; [by rewrite Ha | by rewrite Hb, Heq]. }
  split; [by eapply Hinj|].
  unfold query_first. apply list_find_Some. split; [done|]. split; [done|].
  intros i z Hi Hlt [= Heq].
  assert (i = j) by (by eapply Hinj). lia.
Qed.

Lemma msg_ids_unique_witness :
  query_first (JStr "b2") (db st_edited)
  = Some (1, Message.mk "b2" (JStr "main") (JStr "bob") (JStr "hello")
               "text" None 2 false false ∅ false []).
Proof.
  assert (H : reachable st_edited) by (apply reachable_run; constructor).
  exact (proj2 (msg_ids_unique st_edited H 1 1 _ _ eq_refl eq_refl)).
Defined.

(** X2.  The table only grows: along any list of events a stored row stays
    at its position and keeps its identifier, room, author, type and file,
    and the number of rows never goes down. *)
Theorem rows_keep_identity evs st k m :
  db st !! k = Some m →
  length (db st) ≤ length (db (run evs st).1) ∧
  ∃ m', db (run evs st).1 !! k = Some m' ∧ same_identity m m'.
Proof.
  intros Hk. split.
  - generalize (run_table_step evs st).
    generalize (db (run evs st).1) (db st).
    induction 1 as [rows|e a t mt f r rows msg rows' Hmk
                    |rows j x x' Hj Hx|r1 r2 r3 _ IH1 _ IH2].
    + done.
    + apply mk_msg_db_Some in Hmk as (-> & _). rewrite length_app. lia.
    + by rewrite length_insert.
    + lia.
  - eapply (table_step_rows same_identity);
      [| | |apply run_table_step|done].
    + by intros x.
    + intros x y z (?&?&?&?&?) (?&?&?&?&?).
      repeat split; congruence.
    + intros x y []; by repeat split.
Qed.

Lemma rows_keep_identity_witness :
  ∃ m',
    db (run [ (env_of "y" 9 "",
               DeleteMsg {[ "id" := JStr "a1" ]}) ] st_reacted).1 !! 0
      = Some m' ∧
    same_identity
      (Message.mk "a1" (JStr "main") (JStr "alice") (JStr "hi") "text" None
         1 false false {[ JStr "+1" := [JStr "alice"] ]} false []) m'.
Proof.
  exact (proj2 (rows_keep_identity
                  [ (env_of "y" 9 "", DeleteMsg {[ "id" := JStr "a1" ]}) ]
                  st_reacted 0 _ eq_refl)).
Defined.

(** X3.  Deletion and the edited mark are permanent: once a stored row has
    [deleted] (or [edited]) set, it has it after any list of events. *)
Theorem deleted_and_edited_stay evs st k m :
  db st !! k = Some m →
  ∃ m', db (run evs st).1 !! k = Some m' ∧ flags_kept m m'.
Proof.
  intros Hk.
  eapply (table_step_rows flags_kept); [| | |apply run_table_step|done].
  - by intros x.
  - intros x y z [? ?] [? ?]. split; auto.
  - intros x y []; split; simpl; auto.
Qed.

Lemma deleted_and_edited_stay_witness :
  ∃ m',
    db (run [ (env_of "y" 9 "",
               React (react_data "a1" "+1" "bob")) ] st_edited).1 !! 0
      = Some m' ∧
    flags_kept
      (Message.mk "a1" (JStr "main") (JStr "alice") (JStr "hi there") "text"
         None 3 true false ∅ false []) m'.
Proof.
  exact (deleted_and_edited_stay
           [ (env_of "y" 9 "", React (react_data "a1" "+1" "bob")) ]
           st_edited 0 _ eq_refl).
Defined.

(** X4.  Read receipts only accumulate: along any list of events the read
    set of a stored row is extended at its end, never shortened or
    reordered. *)
Theorem read_by_only_grows evs st k m :
  db st !! k = Some m →
  ∃ m', db (run evs st).1 !! k = Some m' ∧
        Message.read_by m `prefix_of` Message.read_by m'.
Proof.
  intros Hk.
  eapply (table_step_rows
            (λ a b, Message.read_by a `prefix_of` Message.read_by b));
    [| | |apply run_table_step|done].
  - by intros x.
  - intros x y z ? ?. by etrans.
  - intros x y []; simpl; try done. by apply prefix_app_r.
Qed.

Lemma read_by_only_grows_witness :
  ∃ m',
    db (run [ (env_of "y" 9 "",
               Read {[ "id" := JStr "a1"; "room" := JStr "main";
                       "name" := JStr "carol" ]}) ] st_half_read).1 !! 0
      = Some m' ∧
    [JStr "bob"] `prefix_of` Message.read_by m'.
Proof.
  exact (read_by_only_grows
           [ (env_of "y" 9 "",
              Read {[ "id" := JStr "a1"; "room" := JStr "main";
                      "name" := JStr "carol" ]}) ]
           st_half_read 0
           (Message.mk "a1" (JStr "main") (JStr "alice") (JStr "hi") "text"
              None 1 false false ∅ false [JStr "bob"]) eq_refl).
Defined.

(** X5.  In every reachable state no read set and no reaction list of a
    stored row names a user twice. *)
Theorem no_user_listed_twice st k m :
  reachable st → db st !! k = Some m →
  NoDup (Message.read_by m) ∧
  ∀ emoji, NoDup (reaction_set m emoji).
Proof.
  intros Hreach Hk. split.
  - revert k m Hk. apply Forall_lookup.
    apply (reachable_rows_invariant (λ m, NoDup (Message.read_by m)));
      [| |done].
    + intros e a t mt f r rows msg rows' Hmk.
      apply mk_msg_db_Some in Hmk as (_ & _ & _ & _ & -> & _). constructor.
    + intros x y [] Hnd; simpl; try done.
      apply NoDup_app. split; [done|]. split; [|apply NoDup_singleton].
      by intros z Hz ->%list_elem_of_singleton.
  - intros emoji. unfold reaction_set.
    pose proof (Forall_lookup_1 _ _ _ _
                  (reachable_reactions_nodup _ Hreach) Hk) as Hnd.
    destruct (Message.reactions m !! emoji) eqn:Hl; simpl;
      [by eapply Hnd | constructor].
Qed.

Lemma no_user_listed_twice_witness :
  NoDup [JStr "bob"] ∧
  ∀ emoji,
    NoDup (reaction_set
             (Message.mk "a1" (JStr "main") (JStr "alice") (JStr "hi")
                "text" None 1 false false ∅ false [JStr "bob"]) emoji).
Proof.
  assert (H : reachable st_half_read)
    by (apply reachable_run; constructor).
  exact (no_user_listed_twice st_half_read 0 _ H eq_refl).
Defined.

(** ** Repeating and combining the message handlers *)

(** X6.  Marking a message read is idempotent: a second identical [read]
    event leaves the state of the first as it is and emits what the first
    emitted. *)
Theorem on_read_idempotent (d : data) st :
  on_read d (on_read d st).1 = ((on_read d st).1, (on_read d st).2).
Proof.
  unfold on_read. destruct (_ || _) eqn:Hguard; cbn [fst snd]; [done|].
  cbn [db set_db].
  destruct (query_first (get d "id") (db st)) as [[k m]|] eqn:Hq.
  - destruct (truthy (get d "name") &&
              negb (bool_decide (get d "name" ∈ Message.read_by m)))
      eqn:Hun.
    + pose proof (query_first_Some _ _ _ _ Hq) as [Hk _].
      rewrite (query_first_insert _ _ _ _ _ _ _ Hq Hk) by reflexivity.
      rewrite decide_True by done. cbn [Message.read_by set_read_by].
      rewrite (bool_decide_eq_true_2 (get d "name" ∈ _ ++ _))
        by (apply elem_of_app; right; apply list_elem_of_here).
      rewrite andb_false_r. done.
    + rewrite Hq, Hun. done.
  - rewrite Hq. done.
Qed.




(** *** Reactions of different users *)








(** ** Sending a message and reading it back *)




Lemma query_room_snoc r rows msg :
  Message.room msg = r →
  query_room r (rows ++ [msg]) = query_room r rows ++ [msg].
Proof.
  intros Hr. unfold query_room. rewrite filter_app. f_equal.
  rewrite filter_cons_True by done. done.
Qed.

(** X11.  A message sent to a room that holds fewer than 500 messages is in
    the history of the next [join] of that room: the reply contains the
    very dict that was broadcast as [msg]. *)
Theorem sent_message_in_history e e' (d d' : data) st :
  token_hex e ∉ (Message.msg_id <$> db st) →
  get_or d' "room" "main" = get_or d "room" "main" →
  length (query_room (get_or d "room" "main") (db st)) < 500 →
  ∃ dd,
    emit "msg" (PMessage dd) (To (get_or d "room" "main"))
      ∈ (on_msg e d st).2 ∧
    dd ∈ dicts_of (on_join e' d' (on_msg e d st).1).2.
Proof.
  intros Hfresh Hroom Hlen. unfold on_msg, mk_msg_db.
  rewrite bool_decide_eq_false_2 by done. cbn [fst snd].
  eexists. split; [apply list_elem_of_here|].
  unfold on_join. cbv zeta. cbn [fst snd db join_room set_db].
  unfold dicts_of. simpl. rewrite app_nil_r. rewrite Hroom.
  apply list_elem_of_fmap_2.
  rewrite query_room_snoc by done.
  rewrite take_ge.
  - rewrite order_by_ts_Permutation. apply elem_of_app. right.
    apply list_elem_of_here.
  - rewrite order_by_ts_Permutation, length_app. simpl. lia.
Qed.

Lemma sent_message_in_history_witness :
  ∃ dd,
    emit "msg" (PMessage dd) (To (JStr "main"))
      ∈ (on_msg (env_of "x" 5 "c3") (msg_data "main" "alice" "yo")
           st_edited).2 ∧
    dd ∈ dicts_of
           (on_join (env_of "z" 6 "") {[ "room" := JStr "main" ]}
              (on_msg (env_of "x" 5 "c3") (msg_data "main" "alice" "yo")
                 st_edited).1).2.
Proof.
  apply (sent_message_in_history (env_of "x" 5 "c3") (env_of "z" 6 "")
           (msg_data "main" "alice" "yo") {[ "room" := JStr "main" ]}
           st_edited).
  - vm_compute. intros H. inversion H as [|? ? ? H1]; subst.
    inversion H1 as [|? ? ? H2]; subst. inversion H2.
  - reflexivity.
  - vm_compute. lia.
Defined.







(** ** Presence: further properties *)

(** Only [on_auth] and [on_disconnect] write to [sid_to_user]. *)
Lemma handle_sid_to_user e ev st :
  (∀ devices d, ev ≠ Auth devices d) → ev ≠ Disconnect →
  sid_to_user (handle e ev st).1 = sid_to_user st.
Proof.
  intros Hauth Hdis. destruct ev; simpl; try done.
  - by destruct (Hauth devices d).
  - unfold on_msg. by destruct (mk_msg_db _ _ _ _ _ _ _) as [[??]|].
  - unfold on_read. by destruct (_ || _).
  - by rewrite on_read_all_table.
  - unfold on_delete. by destruct (query_first _ _) as [[??]|].
  - unfold on_edit. by destruct (query_first _ _) as [[??]|].
  - unfold on_react. destruct (_ || _); [done|].
    by destruct (query_first _ _) as [[??]|].
  - unfold on_pin. by destruct (query_first _ _) as [[??]|].
  - unfold upload. by destruct (mk_msg_db _ _ _ _ _ _ _) as [[??]|].
  - unfold upload_voice. by destruct (mk_msg_db _ _ _ _ _ _ _) as [[??]|].
  - unfold seed_demo. destruct (db st); [|done].
    destruct (mk_msg_db _ _ _ _ _ _ _) as [[??]|]; [|done].
    by destruct (mk_msg_db _ _ _ _ _ _ _) as [[??]|].
Qed.

Lemma on_auth_sid_inv devices e d st :
  sid_inv st → sid_inv (on_auth devices e d st).1.
Proof.
  intros Hinv. unfold on_auth.
  destruct (negb (truthy (get d "token"))); [done|].
  destruct (match get d "token" with JStr t => devices !! t | _ => None end)
    as [user|]; [|done].
  intros sid u. unfold connections_of. simpl.
  rewrite lookup_insert. case_decide as Hsid.
  - intros [= <-]. subst sid. rewrite lookup_insert_eq. simpl. set_solver.
  - intros Hu. specialize (Hinv _ _ Hu). unfold connections_of in Hinv.
    rewrite lookup_insert. case_decide as Huser; [|done].
    subst u. simpl. set_solver.
Qed.

Lemma on_disconnect_sid_inv e st :
  sid_inv st → sid_inv (on_disconnect e st).1.
Proof.
  intros Hinv. unfold on_disconnect.
  assert (Hdel : ∀ o,
    (∀ sid u, sid ≠ request_sid e → sid_to_user st !! sid = Some u →
              sid ∈ default ∅ (o !! u)) →
    sid_inv {| db := db st; online_users := o;
               sid_to_user := delete (request_sid e) (sid_to_user st);
               rooms := rooms st |}).
  { intros o Ho sid u. unfold connections_of. simpl.
    rewrite lookup_delete. case_decide; [done|]. by apply Ho. }
  destruct (sid_to_user st !! request_sid e) as [user|] eqn:Hsid; simpl;
    [|apply Hdel; intros sid u _ Hu; by apply Hinv].
  destruct (String.eqb user ""); simpl;
    [apply Hdel; intros sid u _ Hu; by apply Hinv|].
  destruct (online_users st !! user) as [s|] eqn:Hs; simpl;
    [|apply Hdel; intros sid u _ Hu; by apply Hinv].
  destruct (decide (s = ∅)); simpl;
    [apply Hdel; intros sid u _ Hu; by apply Hinv|].
  destruct (decide (s ∖ {[request_sid e]} = ∅)) as [Hlast|Hmore]; simpl;
    apply Hdel; intros sid u Hne Hu; specialize (Hinv _ _ Hu);
    unfold connections_of in Hinv.
  - rewrite lookup_delete. case_decide as Huser; [|done].
    subst u. rewrite Hs in Hinv. simpl in *. set_solver.
  - rewrite lookup_insert. case_decide as Huser; [|done].
    subst u. rewrite Hs in Hinv. simpl in *. set_solver.
Qed.

(** X14.  In every reachable state a connection recorded in [sid_to_user]
    is a member of its user's set in [online_users]; so the user of every
    authenticated connection is listed as online. *)
Theorem recorded_connection_is_online st sid user :
  reachable st → sid_to_user st !! sid = Some user →
  sid ∈ connections_of st user ∧ user ∈ dom (online_users st).
Proof.
  intros Hreach Hsid.
  assert (Hinv : sid_inv st).
  { clear Hsid. induction Hreach as [|e ev st _ IH].
    - intros s u. simpl. by rewrite lookup_empty.
    - destruct ev;
        try (intros s u; unfold connections_of;
             rewrite handle_sid_to_user, handle_online_users by done;
             apply IH).
      + by apply on_auth_sid_inv.
      + by apply on_disconnect_sid_inv. }
  pose proof (Hinv _ _ Hsid) as Hin. split; [done|].
  unfold connections_of in Hin. apply elem_of_dom.
  destruct (online_users st !! user); [eauto | set_solver].
Qed.

Lemma recorded_connection_is_online_witness :
  "y" ∈ connections_of st_alice_twice "alice" ∧
  "alice" ∈ dom (online_users st_alice_twice).
Proof.
  assert (H : reachable st_alice_twice)
    by (apply reachable_run; constructor).
  exact (recorded_connection_is_online st_alice_twice "y" "alice" H
           eq_refl).
Defined.



(** X16.  Authenticating and then disconnecting a new connection is a
    round trip on the presence registry: for a user with a non-empty name
    and a connection id that the registry does not know, [online_users],
    [sid_to_user] and the table are afterwards what they were before. *)
Theorem auth_disconnect_round_trip devices e (d : data) st t user :
  reachable st →
  get d "token" = JStr t → t ≠ "" → devices !! t = Some user →
  user ≠ "" →
  sid_to_user st !! request_sid e = None →
  request_sid e ∉ connections_of st user →
  online_users (on_disconnect e (on_auth devices e d st).1).1
    = online_users st ∧
  sid_to_user (on_disconnect e (on_auth devices e d st).1).1
    = sid_to_user st ∧
  db (on_disconnect e (on_auth devices e d st).1).1 = db st.
Proof.
  intros Hreach Ht Hn Hd Huser Hsid Hnot.
  pose proof (reachable_presence_inv _ Hreach) as Hinv.
  unfold on_auth. rewrite Ht. cbn [truthy].
  destruct (String.eqb_spec t "") as [->|_]; [done|]. cbn [negb].
  rewrite Hd. cbn [fst].
  unfold on_disconnect. cbn [sid_to_user join_room online_users db rooms].
  rewrite !lookup_insert_eq.
  destruct (String.eqb_spec user "") as [->|_]; [done|].
  destruct (decide (_ = ∅)) as [Hempty|_]; [set_solver|].
  unfold connections_of in Hnot.
  assert (Hs' : ({[request_sid e]} ∪ default ∅ (online_users st !! user))
                  ∖ {[request_sid e]}
                = default ∅ (online_users st !! user)) by set_solver.
  rewrite Hs'.
  assert (Hsids : delete (request_sid e)
                    (<[request_sid e := user]> (sid_to_user st))
                  = sid_to_user st).
  { rewrite delete_insert_eq. by apply delete_id. }
  destruct (decide (default ∅ (online_users st !! user) = ∅)) as [He|Hne];
    cbn [fst online_users sid_to_user db].
  - split; [|by split]. rewrite delete_insert_eq. apply delete_id.
    destruct (online_users st !! user) as [s|] eqn:Hs; [|done].
    simpl in He. by destruct (Hinv _ _ Hs).
  - split; [|by split]. rewrite insert_insert_eq. apply insert_id.
    destruct (online_users st !! user) as [s|] eqn:Hs; [done|].
    by destruct Hne.
Qed.

Lemma auth_disconnect_round_trip_witness :
  online_users
    (on_disconnect (env_of "z" 5 "")
       (on_auth devices0 (env_of "z" 5 "") {[ "token" := JStr "T3" ]}
          st_alice_twice).1).1
  = online_users st_alice_twice.
Proof.
  assert (H : reachable st_alice_twice)
    by (apply reachable_run; constructor).
  refine (proj1 (auth_disconnect_round_trip devices0 (env_of "z" 5 "")
                   {[ "token" := JStr "T3" ]} st_alice_twice "T3" "bob"
                   H _ _ _ _ _ _));
    [reflexivity | discriminate | reflexivity | discriminate | reflexivity
    | vm_compute; discriminate].
Defined.

(** *** Presence events and the registry *)






(** ** Unknown tokens and logout *)

(** X18.  [auth] with a token that the Device table does not hold (or with
    a token that is not a string) changes nothing and emits nothing; and
    [logout] with a non-empty token removes exactly that token, so a later
    [auth] with it is dropped while every other token still resolves. *)
Theorem auth_unknown_token_dropped devices e (d : data) st :
  ((∀ t, get d "token" = JStr t → devices !! t = None) →
   on_auth devices e d st = (st, [])) ∧
  (∀ form t,
     form !! "token" = Some t → t ≠ "" → get d "token" = JStr t →
     on_auth (logout form devices).1 e d st = (st, []) ∧
     reply_ok (logout form devices).2 = true ∧
     ∀ t', t' ≠ t → (logout form devices).1 !! t' = devices !! t').
Proof.
  assert (Hdrop : ∀ dv, (∀ t, get d "token" = JStr t → dv !! t = None) →
            on_auth dv e d st = (st, [])).
  { intros dv Hnone. unfold on_auth.
    destruct (negb (truthy (get d "token"))); [done|].
    destruct (get d "token") as [| |t] eqn:Ht; try done.
    by rewrite (Hnone t). }
  split; [apply Hdrop|].
  intros form t Hform Hne Ht. unfold logout. rewrite Hform.
  destruct (String.eqb_spec t "") as [->|_]; [done|]. cbn [fst snd].
  split; [|split; [done|]].
  - apply Hdrop. intros t0 Ht0. rewrite Ht in Ht0. injection Ht0 as <-.
    apply lookup_delete_eq.
  - intros t' Hne'. by apply lookup_delete_ne.
Qed.

Lemma auth_unknown_token_dropped_witness :
  on_auth (logout {[ "token" := "T1" ]} devices0).1 (env_of "x" 1 "")
    {[ "token" := JStr "T1" ]} init_state = (init_state, []) ∧
  reply_ok (logout {[ "token" := "T1" ]} devices0).2 = true ∧
  ∀ t', t' ≠ "T1" →
        (logout {[ "token" := "T1" ]} devices0).1 !! t' = devices0 !! t'.
Proof.
  apply (proj2 (auth_unknown_token_dropped devices0 (env_of "x" 1 "")
                  {[ "token" := JStr "T1" ]} init_state)
           {[ "token" := "T1" ]} "T1");
    [reflexivity | discriminate | reflexivity].
Defined.

(** ** Uploads, seeding and joining *)

(** Two words with different first letters are not both a prefix. *)
Lemma prefix_first_letter a s b t mim :
  a ≠ b →
  String.prefix (String a s) mim = true →
  String.prefix (String b t) mim = false.
Proof.
  intros Hne. destruct mim as [|c rest]; [done|]. simpl.
  destruct (Ascii.ascii_dec a c) as [<-|]; [|done]. intros _.
  by destruct (Ascii.ascii_dec b a) as [->|].
Qed.

(** X19.  An upload is stored as one message whose type tag follows the
    MIME type of the file: [image], [audio] or [video] when the MIME type
    starts with that word and [file] otherwise; the text is the fixed
    marker, the attachment is the saved file's address, absent form fields
    default to room [main] and author [Anonymous], and only [msg] is
    emitted (no [sent]). *)
Theorem upload_tags_by_mime e (form : gmap string string) mim url st :
  token_hex e ∉ (Message.msg_id <$> db st) →
  ∃ msg,
    upload e form mim url st =
      (set_db st (db st ++ [msg]),
       [ emit "msg" (PMessage (message_to_dict msg))
           (To (Message.room msg)) ]) ∧
    Message.text msg = JStr "(file)" ∧
    Message.file msg = Some url ∧
    Message.room msg = JStr (default "main" (form !! "room")) ∧
    Message.author msg = JStr (default "Anonymous" (form !! "name")) ∧
    (String.prefix "image" mim = true → Message.mtype msg = "image") ∧
    (String.prefix "audio" mim = true → Message.mtype msg = "audio") ∧
    (String.prefix "video" mim = true → Message.mtype msg = "video") ∧
    (String.prefix "image" mim = false → String.prefix "audio" mim = false →
     String.prefix "video" mim = false → Message.mtype msg = "file").
Proof.
  intros Hfresh. unfold upload, mk_msg_db.
  rewrite bool_decide_eq_false_2 by done.
  eexists (Message.mk _ _ _ _ _ _ _ _ _ _ _ _).
  split; [reflexivity|]. cbn [Message.text Message.file Message.room
                              Message.author Message.mtype].
  split; [done|]. split; [done|]. split; [done|]. split; [done|].
  unfold upload_type. split; [|split; [|split]].
  - intros Hi.
    assert (Ha : String.prefix "audio" mim = false)
      by (eapply prefix_first_letter; [|exact Hi]; discriminate).
    assert (Hv : String.prefix "video" mim = false)
      by (eapply prefix_first_letter; [|exact Hi]; discriminate).
    by rewrite Hi, Ha, Hv.
  - intros Ha.
    assert (Hv : String.prefix "video" mim = false)
      by (eapply prefix_first_letter; [|exact Ha]; discriminate).
    by rewrite Ha, Hv.
  - by intros ->.
  - by intros -> -> ->.
Qed.

Lemma upload_tags_by_mime_witness :
  ∃ msg,
    upload (env_of "x" 5 "f1") {[ "room" := "main" ]} "image/png"
      "http://host/uploads/1_ab.png" st_edited =
      (set_db st_edited (db st_edited ++ [msg]),
       [ emit "msg" (PMessage (message_to_dict msg))
           (To (Message.room msg)) ]) ∧
    Message.mtype msg = "image" ∧
    Message.author msg = JStr "Anonymous".
Proof.
  assert (H : "f1" ∉ (Message.msg_id <$> db st_edited)).
  { apply (bool_decide_unpack _). vm_compute. exact I. }
  destruct (upload_tags_by_mime (env_of "x" 5 "f1") {[ "room" := "main" ]}
              "image/png" "http://host/uploads/1_ab.png" st_edited H)
    as (msg & Hup & _ & _ & _ & Hauthor & Himg & _).
  exists msg. split; [exact Hup|]. split; [by apply Himg | exact Hauthor].
Defined.

(** X20.  [seed_demo] writes only to an empty table and is idempotent: on
    a table with rows it does nothing, on an empty table it stores the
    welcome message of [System] in room [main], followed by the message of
    [Alice] when the two generated identifiers differ, and seeding again
    changes nothing. *)
Theorem seed_demo_only_once e1 e2 e3 e4 st :
  seed_demo e3 e4 (seed_demo e1 e2 st) = seed_demo e1 e2 st ∧
  (db st ≠ [] → seed_demo e1 e2 st = st) ∧
  (db st = [] → token_hex e1 ≠ token_hex e2 →
   Message.author <$> db (seed_demo e1 e2 st)
     = [JStr "System"; JStr "Alice"] ∧
   Message.msg_id <$> db (seed_demo e1 e2 st)
     = [token_hex e1; token_hex e2] ∧
   Forall (λ m, Message.room m = JStr "main") (db (seed_demo e1 e2 st))) ∧
  (db st = [] → token_hex e1 = token_hex e2 →
   Message.author <$> db (seed_demo e1 e2 st) = [JStr "System"]).
Proof.
  assert (Hfirst : ∀ a t mt f r,
    mk_msg_db e1 a t mt f r [] =
      Some (Message.mk (token_hex e1) r a t mt f (utcnow e1) false false ∅
              false [],
            [Message.mk (token_hex e1) r a t mt f (utcnow e1) false false ∅
               false []])).
  { intros. unfold mk_msg_db.
    by rewrite bool_decide_eq_false_2 by apply not_elem_of_nil. }
  assert (Hkeep : ∀ s, db s ≠ [] → seed_demo e3 e4 s = s).
  { intros s Hs. unfold seed_demo. by destruct (db s). }
  destruct (db st) as [|m0 rest] eqn:Hdb.
  - assert (Hseed : seed_demo e1 e2 st =
      match mk_msg_db e2 (JStr "Alice")
              (JStr "Say hi — persistence enabled.") "text" None
              (JStr "main")
              [Message.mk (token_hex e1) (JStr "main") (JStr "System")
                 (JStr "Welcome to WhatsApp-Lite PROD (persistent demo)!")
                 "text" None (utcnow e1) false false ∅ false []] with
      | None =>
          set_db st
            [Message.mk (token_hex e1) (JStr "main") (JStr "System")
               (JStr "Welcome to WhatsApp-Lite PROD (persistent demo)!")
               "text" None (utcnow e1) false false ∅ false []]
      | Some (_, rows2) => set_db st rows2
      end).
    { unfold seed_demo. by rewrite Hdb, Hfirst. }
    rewrite Hseed. unfold mk_msg_db. cbn [fmap list_fmap Message.msg_id].
    destruct (decide (token_hex e1 = token_hex e2)) as [Heq|Hne].
    + rewrite bool_decide_eq_true_2
        by (rewrite Heq; apply list_elem_of_here).
      split; [by apply Hkeep|]. split; [done|]. split; [done|done].
    + rewrite bool_decide_eq_false_2
        by (intros Hin%list_elem_of_singleton; congruence).
      split; [by apply Hkeep|]. split; [done|].
      split; [|done]. intros _ _. split; [done|]. split; [done|].
      by repeat constructor.
  - assert (Hsame : seed_demo e1 e2 st = st).
    { unfold seed_demo. by rewrite Hdb. }
    rewrite Hsame. split; [apply Hkeep; by rewrite Hdb|].
    split; [done|]. split; [done|done].
Qed.

Lemma seed_demo_only_once_witness :
  Message.author <$>
    db (seed_demo (env_of "" 1 "s1") (env_of "" 2 "s2") init_state)
  = [JStr "System"; JStr "Alice"].
Proof.
  exact (proj1 (proj1 (proj2 (proj2 (seed_demo_only_once
                  (env_of "" 1 "s1") (env_of "" 2 "s2")
                  (env_of "" 3 "s3") (env_of "" 4 "s4") init_state)))
                  eq_refl ltac:(discriminate))).
Defined.

(** X21.  Joining a room is idempotent: a second identical [join] from the
    same connection leaves the state of the first as it is and receives
    the same history; [join] never writes to the table or the presence
    registry, and it does not ask for authentication. *)
Theorem join_idempotent e (d : data) st :
  on_join e d (on_join e d st).1 = on_join e d st ∧
  request_sid e ∈ default ∅ (rooms (on_join e d st).1
                               !! get_or d "room" "main") ∧
  db (on_join e d st).1 = db st ∧
  online_users (on_join e d st).1 = online_users st ∧
  sid_to_user (on_join e d st).1 = sid_to_user st.
Proof.
  unfold on_join. cbv zeta. cbn [fst snd db join_room rooms online_users
                                 sid_to_user].
  split; [|split; [|done]].
  - f_equal. unfold join_room. cbn. f_equal.
    rewrite lookup_insert_eq. cbn. rewrite insert_insert_eq. f_equal.
    set_solver.
  - rewrite lookup_insert_eq. simpl. set_solver.
Qed.
